(** * hivemind.moe.server.connection_handler

    A shallow embedding of [ConnectionHandler]: the process that accepts
    requests addressed to experts, decodes their tensors, submits them to the
    expert's task pool and sends the encoded results back, either as one
    message or as a stream of size-bounded parts.

    Python exceptions are values of [exn] carried by [result]; the task pools
    shared by all calls are a log of submissions threaded through the monad
    [M]; an asynchronous generator is a state machine stepped by [anext]. *)

From Stdlib Require Import NArith List Lia.
From stdpp Require Import base option list strings gmap.

Set Default Proof Using "Type".
Open Scope string_scope.
Open Scope list_scope.
Open Scope nat_scope.

(** ** Exceptions and results *)

(** [KeyError] is what a dict lookup raises (the key may be [None]),
    [AssertionError] what a failed [assert] raises; [RuntimeError] stands for
    whatever an external collaborator (codec, task pool, transport) raises. *)
Inductive exn : Type :=
| KeyError (key : option string)
| AssertionError (msg : string)
| RuntimeError (msg : string).

Inductive result (A : Type) : Type :=
| Ok (a : A)
| Raise (e : exn).
Arguments Ok {A} a.
Arguments Raise {A} e.

Definition result_bind {A B} (r : result A) (k : A → result B) : result B :=
  match r with
  | Ok a => k a
  | Raise e => Raise e
  end.

(** A list comprehension [[f(x) for x in xs]] whose body may raise: elements
    are evaluated left to right and the first exception aborts the rest. *)
Fixpoint comprehension {A B} (f : A → result B) (xs : list A) : result (list B) :=
  match xs with
  | [] => Ok []
  | x :: xs' =>
      result_bind (f x) (λ y,
      result_bind (comprehension f xs') (λ ys, Ok (y :: ys)))
  end.

(** ** Wire messages (runtime_pb2) *)

Definition CompressionType := N.

Record WireTensor := mkWireTensor {
  wt_dtype : string;
  wt_shape : list N;
  wt_compression : CompressionType;
  wt_payload : list Byte.byte;
}.

Record ExpertUID := mkExpertUID { info_uid : string }.
Record ExpertInfo := mkExpertInfo { serialized_info : list Byte.byte }.
Record ExpertRequest := mkExpertRequest { uid : string; tensors : list WireTensor }.
Record ExpertResponse := mkExpertResponse { response_tensors : list WireTensor }.

(** ** Schemas *)

Record BatchTensorDescriptor := mkDescr {
  dtype : string;
  shape : list N;
  compression : CompressionType;
}.

#[warnings="-register-all"]
Inductive Schema : Type :=
| Descr (d : BatchTensorDescriptor)
| Nested (children : list Schema).

(** Modelled from the spec: [nested_flatten] of hivemind.utils is not part of
    the sources at hand.  A schema is "an ordered (possibly nested) collection
    of per-position descriptors"; flattening lists its descriptors from left
    to right. *)
Fixpoint nested_flatten (s : Schema) : list BatchTensorDescriptor :=
  match s with
  | Descr d => [d]
  | Nested children =>
      (fix go (cs : list Schema) : list BatchTensorDescriptor :=
         match cs with
         | [] => []
         | c :: cs' => nested_flatten c ++ go cs'
         end) children
  end.

(** ** Streaming helpers (hivemind.utils.grpc) *)

(** Modelled from the spec: the cutting done by [split_for_streaming], which
    is not part of the sources at hand.  Consecutive pieces of at most [cap]
    bytes; there is always a first piece, so a message with an empty payload
    is still one fragment.  [fuel] bounds the number of pieces. *)
Fixpoint chunk_payload (fuel cap : nat) (bs : list Byte.byte) : list (list Byte.byte) :=
  match fuel with
  | O => []
  | S fuel' =>
      match drop cap bs with
      | [] => [take cap bs]
      | rest => take cap bs :: chunk_payload fuel' cap rest
      end
  end.

(** Modelled from the spec: [split_for_streaming] of hivemind.utils.grpc is
    not part of the sources at hand.  It "splits one serialized message into
    an ordered sequence of size-bounded fragments": every fragment is a wire
    tensor with the descriptor of the message and the next at most [cap]
    payload bytes. *)
Definition split_for_streaming (t : WireTensor) (cap : N) : list WireTensor :=
  mkWireTensor (wt_dtype t) (wt_shape t) (wt_compression t)
    <$> chunk_payload (S (length (wt_payload t))) (N.to_nat cap) (wt_payload t).

(** Modelled from the spec: [combine_from_streaming] of hivemind.utils.grpc
    is not part of the sources at hand.  The codec "can reassemble a fragment
    sequence into one message": the descriptor of the first fragment with the
    payloads of all fragments joined in order. *)
Definition combine_from_streaming (parts : list WireTensor) : option WireTensor :=
  match parts with
  | [] => None
  | first :: _ =>
      Some (mkWireTensor (wt_dtype first) (wt_shape first) (wt_compression first)
              (concat (wt_payload <$> parts)))
  end.

(** Modelled from the spec: the reading loop of [gather_from_rpc], which is
    not part of the sources at hand.  The frames of one streamed call are
    read one by one through [key], a callable with a state of its own; an
    exception raised by [key] ends the reading at that frame. *)
Fixpoint gather_parts {U} (key : U → ExpertRequest → result (list WireTensor) * U)
    (u : U) (requests : list ExpertRequest) : result (list WireTensor) * U :=
  match requests with
  | [] => (Ok [], u)
  | request :: requests' =>
      match key u request with
      | (Ok parts, u') =>
          match gather_parts key u' requests' with
          | (Ok rest, u'') => (Ok (parts ++ rest), u'')
          | (Raise e, u'') => (Raise e, u'')
          end
      | (Raise e, u') => (Raise e, u')
      end
  end.

(** Modelled from the spec: [gather_from_rpc] of hivemind.utils.grpc is not
    part of the sources at hand.  It "accumulates the tensors of every frame,
    in frame order, into one flat ordered sequence, then deserializes each
    into a tensor". *)
Definition gather_from_rpc {U T} (requests : list ExpertRequest)
    (key : U → ExpertRequest → result (list WireTensor) * U) (u : U)
    (deserializer : WireTensor → result T) : result (list T) * U :=
  match gather_parts key u requests with
  | (Ok parts, u') => (comprehension deserializer parts, u')
  | (Raise e, u') => (Raise e, u')
  end.

(** ** External collaborators

    The tensor codec, the metadata serializer and the transport's message
    size limit are imported by the handler and used as given. *)
Class Collaborators := {
  Tensor : Type;
  InfoDict : Type;
  deserialize_torch_tensor : WireTensor → result Tensor;
  serialize_torch_tensor : Tensor → CompressionType → WireTensor;
  MSGPackSerializer_dumps : InfoDict → list Byte.byte;
  DEFAULT_MAX_MSG_SIZE : N;
}.

Section Handler.
Context `{Collaborators}.

(** ** Task pools and experts *)

(** A task pool accepts a tuple of tensors and eventually answers with a
    tuple of tensors or with an exception; how it batches is its own
    business.  The pool is identified by its name. *)
Record TaskPool := mkTaskPool {
  pool_name : string;
  pool_outcome : list Tensor → result (list Tensor);
}.

Record ExpertBackend := mkExpertBackend {
  forward_pool : TaskPool;
  backward_pool : TaskPool;
  outputs_schema : Schema;
  grad_inputs_schema : Schema;
  get_info : InfoDict;
}.

(** ** The handler monad: exceptions plus the log of pool submissions *)

Record Submission := mkSubmission {
  sub_pool : string;
  sub_inputs : list Tensor;
}.

Definition M (A : Type) : Type := list Submission → result A * list Submission.

Definition ret {A} (a : A) : M A := λ log, (Ok a, log).
Definition raise {A} (e : exn) : M A := λ log, (Raise e, log).
Definition bind {A B} (m : M A) (k : A → M B) : M B :=
  λ log, match m log with
         | (Ok a, log') => k a log'
         | (Raise e, log') => (Raise e, log')
         end.
Definition lift {A} (r : result A) : M A := λ log, (r, log).

Notation "'do' x <- m ; k" := (bind m (λ x, k))
  (at level 10, x name, m at level 100, k at level 200).

(** Awaiting [pool.submit_task] on the unpacked inputs: the task is enqueued
    and the pool's answer is returned. *)
Definition submit_task (pool : TaskPool) (inputs : list Tensor) : M (list Tensor) :=
  λ log, (pool_outcome pool inputs, log ++ [mkSubmission (pool_name pool) inputs]).

(** [self.experts[key]]: the registry is a [Dict[str, ExpertBackend]], so no
    entry is stored under [None]. *)
Definition experts_getitem (experts : gmap string ExpertBackend)
    (key : option string) : result ExpertBackend :=
  match key with
  | Some u =>
      match experts !! u with
      | Some expert => Ok expert
      | None => Raise (KeyError (Some u))
      end
  | None => Raise (KeyError None)
  end.

(** ** Unary procedures *)

Definition rpc_info (experts : gmap string ExpertBackend) (request : ExpertUID)
    : M ExpertInfo :=
  do expert <- lift (experts_getitem experts (Some (info_uid request)));
  ret (mkExpertInfo (MSGPackSerializer_dumps (get_info expert))).

Definition _process_inputs (inputs : list Tensor) (pool : TaskPool) (schema : Schema)
    : M (list WireTensor) :=
  do outputs <- submit_task pool inputs;
  ret ((λ tp, serialize_torch_tensor tp.1 (compression tp.2))
         <$> zip outputs (nested_flatten schema)).

Definition rpc_forward (experts : gmap string ExpertBackend) (request : ExpertRequest)
    : M ExpertResponse :=
  do inputs <- lift (comprehension deserialize_torch_tensor (tensors request));
  do expert <- lift (experts_getitem experts (Some (uid request)));
  do outs <- _process_inputs inputs (forward_pool expert) (outputs_schema expert);
  ret (mkExpertResponse outs).

Definition rpc_backward (experts : gmap string ExpertBackend) (request : ExpertRequest)
    : M ExpertResponse :=
  do inputs_and_grads <- lift (comprehension deserialize_torch_tensor (tensors request));
  do expert <- lift (experts_getitem experts (Some (uid request)));
  do outs <- _process_inputs inputs_and_grads (backward_pool expert)
               (grad_inputs_schema expert);
  ret (mkExpertResponse outs).

(** ** Gathering the frames of a streamed call *)

(** [_RequestUnpacker] has the single slot [uid], [None] until the first
    frame is seen. *)
Definition _RequestUnpacker := option string.

Definition _RequestUnpacker_init : _RequestUnpacker := None.

Definition _RequestUnpacker_call (self : _RequestUnpacker) (request : ExpertRequest)
    : result (list WireTensor) * _RequestUnpacker :=
  match self with
  | None => (Ok (tensors request), Some (uid request))
  | Some claimed =>
      if String.eqb claimed (uid request)
      then (Ok (tensors request), self)
      else (Raise (AssertionError "Expert uids differ in one request"), self)
  end.

Definition _gather_inputs (requests : list ExpertRequest)
    : result (option string * list Tensor) :=
  match gather_from_rpc requests _RequestUnpacker_call _RequestUnpacker_init
          deserialize_torch_tensor with
  | (Ok inputs, unpacker) => Ok (unpacker, inputs)
  | (Raise e, _) => Raise e
  end.

(** ** Streamed procedures

    An asynchronous generator object is [Created] without running any of its
    body.  The first [anext] runs the body up to the first [yield]: by then
    the list [output_split] is complete, and the generator stays suspended in
    the loop over it, [next] being the index of the part to yield next.  An
    exception, or the end of the body, leaves it [Finished] for good. *)
Inductive StreamState : Type :=
| Created (requests : list ExpertRequest)
| Suspended (output_split : list WireTensor) (next : nat)
| Finished.

Definition StepResult : Type :=
  result (option ExpertResponse) * StreamState * list Submission.

(** The loop [async for part in as_aiter( *output_split ): yield ...]. *)
Definition resume_loop (output_split : list WireTensor) (next : nat)
    (log : list Submission) : StepResult :=
  match output_split !! next with
  | Some part => (Ok (Some (mkExpertResponse [part])), Suspended output_split (S next), log)
  | None => (Ok None, Finished, log)
  end.

Definition stream_anext (body : list ExpertRequest → M (list WireTensor))
    (g : StreamState) (log : list Submission) : StepResult :=
  match g with
  | Created requests =>
      match body requests log with
      | (Ok output_split, log') => resume_loop output_split 0 log'
      | (Raise e, log') => (Raise e, Finished, log')
      end
  | Suspended output_split next => resume_loop output_split next log
  | Finished => (Ok None, Finished, log)
  end.

(** The statements of [rpc_forward_stream] before its loop. *)
Definition forward_output_split (experts : gmap string ExpertBackend)
    (requests : list ExpertRequest) : M (list WireTensor) :=
  do gathered <- lift (_gather_inputs requests);
  do expert <- lift (experts_getitem experts gathered.1);
  do outs <- _process_inputs gathered.2 (forward_pool expert) (outputs_schema expert);
  ret (t ← outs; split_for_streaming t (DEFAULT_MAX_MSG_SIZE / 2)).

Definition rpc_forward_stream (experts : gmap string ExpertBackend)
    : StreamState → list Submission → StepResult :=
  stream_anext (forward_output_split experts).

(** The statements of [rpc_backward_stream] before its loop. *)
Definition backward_output_split (experts : gmap string ExpertBackend)
    (requests : list ExpertRequest) : M (list WireTensor) :=
  do gathered <- lift (_gather_inputs requests);
  do expert <- lift (experts_getitem experts gathered.1);
  do outs <- _process_inputs gathered.2 (backward_pool expert)
               (grad_inputs_schema expert);
  ret (t ← outs; split_for_streaming t (DEFAULT_MAX_MSG_SIZE / 2)).

Definition rpc_backward_stream (experts : gmap string ExpertBackend)
    : StreamState → list Submission → StepResult :=
  stream_anext (backward_output_split experts).

(** The transport reads a response stream to its end: [anext] is called until
    it signals the end or raises.  [None] when [fuel] calls were not enough. *)
Fixpoint consume (anext : StreamState → list Submission → StepResult) (fuel : nat)
    (g : StreamState) (log : list Submission)
    : option (result (list ExpertResponse) * StreamState * list Submission) :=
  match fuel with
  | O => None
  | S fuel' =>
      match anext g log with
      | (Ok (Some frame), g', log') =>
          match consume anext fuel' g' log' with
          | Some (Ok frames, g'', log'') => Some (Ok (frame :: frames), g'', log'')
          | other => other
          end
      | (Ok None, g', log') => Some (Ok [], g', log')
      | (Raise e, g', log') => Some (Raise e, g', log')
      end
  end.

(** ** Vocabulary of the statements *)

(** The exception of the unpacker's assertion. *)
Definition uids_differ : exn := AssertionError "Expert uids differ in one request".

(** The response frame that carries one part. *)
Definition frame_of (part : WireTensor) : ExpertResponse := mkExpertResponse [part].

(** The fragments of each encoded tensor under the bound of the streamed
    procedures, tensor by tensor. *)
Definition fragments_of (serialized : list WireTensor) : list (list WireTensor) :=
  (λ t, split_for_streaming t (DEFAULT_MAX_MSG_SIZE / 2)) <$> serialized.

(** An expert with its two pools and its two schemas exchanged. *)
Definition exchanged (expert : ExpertBackend) : ExpertBackend :=
  mkExpertBackend (backward_pool expert) (forward_pool expert)
    (grad_inputs_schema expert) (outputs_schema expert) (get_info expert).

(** The two streamed procedures, by direction. *)
Inductive Direction : Type := Forward | Backward.

Definition rpc_stream (d : Direction) (experts : gmap string ExpertBackend)
    : StreamState → list Submission → StepResult :=
  match d with
  | Forward => rpc_forward_stream experts
  | Backward => rpc_backward_stream experts
  end.

Definition output_split_of (d : Direction) (experts : gmap string ExpertBackend)
    : list ExpertRequest → M (list WireTensor) :=
  match d with
  | Forward => forward_output_split experts
  | Backward => backward_output_split experts
  end.

Definition pool_of (d : Direction) (expert : ExpertBackend) : TaskPool :=
  match d with
  | Forward => forward_pool expert
  | Backward => backward_pool expert
  end.

Definition schema_of (d : Direction) (expert : ExpertBackend) : Schema :=
  match d with
  | Forward => outputs_schema expert
  | Backward => grad_inputs_schema expert
  end.

(** The encodings of a pool's answer under a schema, and the frames of the
    stream that carries them. *)
Definition serialized_outputs (outputs : list Tensor) (schema : Schema)
    : list WireTensor :=
  zip_with (λ t p, serialize_torch_tensor t (compression p))
    outputs (nested_flatten schema).

Definition stream_frames (serialized : list WireTensor) : list ExpertResponse :=
  frame_of <$> concat (fragments_of serialized).

(** The two unary procedures, by direction. *)
Definition rpc_unary (d : Direction) (experts : gmap string ExpertBackend)
    : ExpertRequest → M ExpertResponse :=
  match d with
  | Forward => rpc_forward experts
  | Backward => rpc_backward experts
  end.

(** The generator and the submission log after [n] calls of [anext], whatever
    the calls returned. *)
Fixpoint step_n (anext : StreamState → list Submission → StepResult) (n : nat)
    (g : StreamState) (log : list Submission) : StreamState * list Submission :=
  match n with
  | O => (g, log)
  | S n' => step_n anext n' (anext g log).1.2 (anext g log).2
  end.

Definition is_created (g : StreamState) : bool :=
  match g with
  | Created _ => true
  | _ => false
  end.

End Handler.

(** ** The process body: [ConnectionHandler.run]

    What [run] does depends on how the transport answers; the answers are
    given by a [Startup] scenario and [run] yields the ordered trace of the
    calls it makes, among them the calls that resolve the future [ready]. *)
Module Lifecycle.

(** [except Exception] does not catch a [KeyboardInterrupt]. *)
Inductive raised : Type :=
| Exception (e : exn)
| KeyboardInterrupt.

Inductive outcome : Type :=
| Returns
| Raises (r : raised).

(** [serving] is what ends the wait on the never-resolved [asyncio.Future()],
    [None] when nothing ever does. *)
Record Startup := mkStartup {
  replicate_p2p : outcome;
  add_p2p_handlers : outcome;
  serving : option raised;
}.

Inductive event : Type :=
| set_num_threads (n : N)
| switch_to_uvloop
| ready_set_result
| ready_set_exception (e : exn)
| call_replicate_p2p
| call_add_p2p_handlers (balanced : bool)
| await_future
| log_debug (msg : string).

Inductive ending : Type :=
| Completed
| Raised (r : raised)
| Blocked.

(** A piece of the process: the calls made so far and how it went on. *)
Definition Proc : Type := list event * ending.

Definition emit (ev : event) : Proc := ([ev], Completed).

Definition call (ev : event) (o : outcome) : Proc :=
  ([ev], match o with Returns => Completed | Raises r => Raised r end).

Definition wait_forever (ev : event) (o : option raised) : Proc :=
  ([ev], match o with None => Blocked | Some r => Raised r end).

Definition seq (p : Proc) (q : Proc) : Proc :=
  match p with
  | (tr, Completed) => (tr ++ q.1, q.2)
  | _ => p
  end.

Definition try_except_Exception (p : Proc) (handler : exn → Proc) : Proc :=
  match p with
  | (tr, Raised (Exception e)) => (tr ++ (handler e).1, (handler e).2)
  | _ => p
  end.

Definition try_except_KeyboardInterrupt (p : Proc) (handler : Proc) : Proc :=
  match p with
  | (tr, Raised KeyboardInterrupt) => (tr ++ handler.1, handler.2)
  | _ => p
  end.

Declare Scope proc_scope.
Notation "p ;; q" := (seq p q) (at level 100, q at level 200, right associativity)
  : proc_scope.
Local Open Scope proc_scope.

Definition _run (env : Startup) : Proc :=
  try_except_Exception
    (call call_replicate_p2p (replicate_p2p env) ;;
     call (call_add_p2p_handlers true) (add_p2p_handlers env) ;;
     wait_forever await_future (serving env))
    (λ e, emit (ready_set_exception e)).

Definition run (env : Startup) : Proc :=
  emit (set_num_threads 1) ;;
  emit switch_to_uvloop ;;
  emit ready_set_result ;;
  try_except_KeyboardInterrupt (_run env)
    (emit (log_debug "Caught KeyboardInterrupt, shutting down")).

Definition is_resolution (ev : event) : bool :=
  match ev with
  | ready_set_result | ready_set_exception _ => true
  | _ => false
  end.

(** Whether the first call of [_run] that does not return raises a
    [KeyboardInterrupt]. *)
Definition interrupted (env : Startup) : bool :=
  match replicate_p2p env with
  | Raises KeyboardInterrupt => true
  | Raises (Exception _) => false
  | Returns =>
      match add_p2p_handlers env with
      | Raises KeyboardInterrupt => true
      | Raises (Exception _) => false
      | Returns =>
          match serving env with
          | Some KeyboardInterrupt => true
          | _ => false
          end
      end
  end.

(** The calls that resolve [ready], in the order they are made.  How the
    future reacts to being resolved when it is resolved already is its own
    business; the trace holds the calls. *)
Definition resolutions (p : Proc) : list event := List.filter is_resolution p.1.

End Lifecycle.

(** ** A small concrete setting

    Tensors are byte vectors; a wire tensor without a dtype is malformed; the
    transport carries messages of at most four bytes. *)
Module Toy.

Definition decode (w : WireTensor) : result (list Byte.byte) :=
  if String.eqb (wt_dtype w) "" then Raise (RuntimeError "malformed tensor")
  else Ok (wt_payload w).

Definition encode (t : list Byte.byte) (c : CompressionType) : WireTensor :=
  mkWireTensor "uint8" [N.of_nat (length t)] c t.

#[export] Instance collaborators : Collaborators := {|
  Tensor := list Byte.byte;
  InfoDict := string;
  deserialize_torch_tensor := decode;
  serialize_torch_tensor := encode;
  MSGPackSerializer_dumps := λ _, [];
  DEFAULT_MAX_MSG_SIZE := 4;
|}.

(** The pool of "expert0" answers with its input followed by its reverse. *)
Definition mirror : TaskPool :=
  mkTaskPool "expert0.forward" (λ ts, Ok (ts ++ (@rev _ <$> ts))).

Definition echo : TaskPool :=
  mkTaskPool "expert0.backward" (λ ts, Ok ts).

Definition plain : BatchTensorDescriptor := mkDescr "uint8" [3%N] 0%N.
Definition packed : BatchTensorDescriptor := mkDescr "uint8" [3%N] 2%N.

Definition expert0 : ExpertBackend :=
  mkExpertBackend mirror echo (Nested [Descr plain; Nested [Descr packed]])
    (Descr plain) "expert0".

Definition experts : gmap string ExpertBackend := {[ "expert0" := expert0 ]}.

Definition wire (bs : list Byte.byte) : WireTensor :=
  mkWireTensor "uint8" [N.of_nat (length bs)] 0%N bs.

Definition abc : WireTensor := wire [Byte.x61; Byte.x62; Byte.x63].
Definition cba : list Byte.byte := [Byte.x63; Byte.x62; Byte.x61].
Definition garbage : WireTensor := mkWireTensor "" [] 0%N [Byte.xff].

End Toy.

(** * Properties *)

(** ** Comprehensions *)

Lemma comprehension_Ok {A B} (f : A → result B) (xs : list A) (ys : list B) :
  comprehension f xs = Ok ys ↔ Forall2 (λ x y, f x = Ok y) xs ys.
Proof.
  revert ys. induction xs as [|x xs IH]; intros ys; simpl.
  - split.
    + intros [= <-]. constructor.
    + intros Hall. by inversion Hall.
  - split.
    + destruct (f x) as [y|e] eqn:Hfx; simpl; [|done].
      destruct (comprehension f xs) as [ys'|e] eqn:Hrest; simpl; [|done].
      intros [= <-]. constructor; [done|]. by apply IH.
    + intros Hall. inversion Hall as [|? y ? ys' Hfx Hrest]; subst.
      rewrite Hfx. simpl. apply IH in Hrest. by rewrite Hrest.
Qed.

(** A comprehension over [zip] pairs the positions both lists have. *)
Lemma zip_comprehension {A B C} (f : A → B → C) (xs : list A) (ys : list B) :
  (λ xy, f xy.1 xy.2) <$> zip xs ys = zip_with f xs ys.
Proof.
  revert ys. induction xs as [|x xs IH]; intros [|y ys]; simpl; try done.
  f_equal. apply IH.
Qed.

(** ** Splitting and reassembly *)

Lemma chunk_payload_concat (fuel cap : nat) (bs : list Byte.byte) :
  0 < cap → length bs < fuel → concat (chunk_payload fuel cap bs) = bs.
Proof.
  intros Hcap. revert bs. induction fuel as [|fuel IH]; intros bs Hlen; [lia|].
  simpl. destruct (drop cap bs) as [|b rest] eqn:Hdrop.
  - simpl. rewrite app_nil_r. rewrite <- (take_drop cap bs) at 2.
    by rewrite Hdrop, app_nil_r.
  - simpl. rewrite IH.
    + rewrite <- Hdrop. apply take_drop.
    + rewrite <- Hdrop, length_drop.
      assert (length (drop cap bs) ≠ 0) by (rewrite Hdrop; done).
      rewrite length_drop in *. lia.
Qed.

Lemma chunk_payload_bound (fuel cap : nat) (bs : list Byte.byte) :
  Forall (λ piece, length piece ≤ cap) (chunk_payload fuel cap bs).
Proof.
  revert bs. induction fuel as [|fuel IH]; intros bs; simpl; [constructor|].
  assert (length (take cap bs) ≤ cap) by (rewrite length_take; lia).
  destruct (drop cap bs) as [|b rest].
  - by repeat constructor.
  - constructor; [done | apply IH].
Qed.

Lemma chunk_payload_nonempty (fuel cap : nat) (bs : list Byte.byte) :
  chunk_payload (S fuel) cap bs ≠ [].
Proof. simpl. by destruct (drop cap bs). Qed.

Lemma split_for_streaming_payload (t : WireTensor) (cap : N) :
  (0 < cap)%N → concat (wt_payload <$> split_for_streaming t cap) = wt_payload t.
Proof.
  intros Hcap. unfold split_for_streaming.
  rewrite <- list_fmap_compose.
  replace (wt_payload ∘ _) with (@id (list Byte.byte)) by done.
  rewrite list_fmap_id. apply chunk_payload_concat; lia.
Qed.

Lemma split_for_streaming_bound (t : WireTensor) (cap : N) :
  Forall (λ part, length (wt_payload part) ≤ N.to_nat cap) (split_for_streaming t cap).
Proof.
  unfold split_for_streaming. apply Forall_fmap.
  eapply Forall_impl; [apply chunk_payload_bound|]. done.
Qed.

Lemma combine_split (t : WireTensor) (cap : N) :
  (0 < cap)%N → combine_from_streaming (split_for_streaming t cap) = Some t.
Proof.
  intros Hcap. unfold combine_from_streaming.
  pose proof (split_for_streaming_payload t cap Hcap) as Hpay.
  destruct (split_for_streaming t cap) as [|first parts] eqn:Hsplit.
  - unfold split_for_streaming in Hsplit.
    apply fmap_nil_inv in Hsplit. by apply chunk_payload_nonempty in Hsplit.
  - rewrite Hpay. unfold split_for_streaming in Hsplit.
    destruct (chunk_payload _ _ _) as [|piece pieces]; [done|].
    injection Hsplit as <- _. simpl. by destruct t.
Qed.

(** ** The request unpacker *)

Lemma gather_parts_agree (u : string) (requests : list ExpertRequest) :
  Forall (λ r, uid r = u) requests →
  gather_parts _RequestUnpacker_call (Some u) requests
  = (Ok (concat (tensors <$> requests)), Some u).
Proof.
  induction 1 as [|r rs Hr _ IH]; simpl; [done|].
  rewrite Hr, String.eqb_refl. by rewrite IH.
Qed.

Lemma gather_parts_differ (u : string) (requests : list ExpertRequest) :
  Exists (λ r, uid r ≠ u) requests →
  gather_parts _RequestUnpacker_call (Some u) requests = (Raise uids_differ, Some u).
Proof.
  induction requests as [|r rs IH]; intros Hex; [by inversion Hex|].
  simpl. destruct (String.eqb u (uid r)) eqn:Heq; [|done].
  apply String.eqb_eq in Heq. rewrite IH; [done|].
  inversion Hex as [?? Hne|]; subst; [by destruct Hne | done].
Qed.

(** ** Reading a response stream to its end *)

Section Streams.
Context `{Collaborators}.
Variable body : list ExpertRequest → M (list WireTensor).

Lemma consume_suspended (fuel : nat) (output_split : list WireTensor) (next : nat)
    (log : list Submission) :
  length output_split - next < fuel →
  consume (stream_anext body) fuel (Suspended output_split next) log
  = Some (Ok (frame_of <$> drop next output_split), Finished, log).
Proof.
  revert next. induction fuel as [|fuel IH]; intros next Hfuel; [lia|].
  simpl. unfold resume_loop.
  destruct (output_split !! next) as [part|] eqn:Hpart.
  - pose proof (lookup_lt_Some _ _ _ Hpart).
    rewrite IH by lia. by rewrite (drop_S _ _ _ Hpart).
  - apply lookup_ge_None in Hpart. by rewrite drop_ge.
Qed.

Lemma consume_created (fuel : nat) (requests : list ExpertRequest)
    (output_split : list WireTensor) (log log' : list Submission) :
  body requests log = (Ok output_split, log') →
  length output_split < fuel →
  consume (stream_anext body) fuel (Created requests) log
  = Some (Ok (frame_of <$> output_split), Finished, log').
Proof.
  intros Hbody Hfuel. destruct fuel as [|fuel]; [lia|].
  simpl. rewrite Hbody. unfold resume_loop.
  destruct output_split as [|part parts]; [done|].
  simpl. simpl in Hfuel. rewrite consume_suspended by (simpl; lia). done.
Qed.

Lemma consume_suspended_inv (fuel : nat) (output_split : list WireTensor) (next : nat)
    (log : list Submission) r :
  consume (stream_anext body) fuel (Suspended output_split next) log = Some r →
  r = (Ok (frame_of <$> drop next output_split), Finished, log).
Proof.
  revert next r. induction fuel as [|fuel IH]; intros next r; [done|].
  simpl. unfold resume_loop.
  destruct (output_split !! next) as [part|] eqn:Hpart.
  - destruct (consume _ fuel _ log) as [r'|] eqn:Hrest; [|done].
    apply IH in Hrest as ->. intros [= <-]. by rewrite (drop_S _ _ _ Hpart).
  - apply lookup_ge_None in Hpart. intros [= <-]. by rewrite drop_ge.
Qed.

Lemma consume_created_Some (fuel : nat) (requests : list ExpertRequest)
    (output_split : list WireTensor) (log log' : list Submission) r :
  body requests log = (Ok output_split, log') →
  consume (stream_anext body) fuel (Created requests) log = Some r →
  r = (Ok (frame_of <$> output_split), Finished, log').
Proof.
  intros Hbody. destruct fuel as [|fuel]; [done|]. simpl. rewrite Hbody.
  unfold resume_loop. destruct output_split as [|part parts]; simpl.
  - by intros [= <-].
  - destruct (consume _ fuel _ log') as [r'|] eqn:Hrest; [|done].
    apply consume_suspended_inv in Hrest as ->. simpl. by intros [= <-].
Qed.

End Streams.

Section Claims.
Context `{Collaborators}.
Implicit Types (experts : gmap string ExpertBackend) (log : list Submission).

(** When the pool answers, [_process_inputs] has logged the submission and
    returns the encodings of the answer paired with the flattened schema. *)
Lemma process_inputs_answer (inputs outputs : list Tensor) (pool : TaskPool)
    (schema : Schema) log :
  pool_outcome pool inputs = Ok outputs →
  _process_inputs inputs pool schema log
  = (Ok (zip_with (λ t p, serialize_torch_tensor t (compression p))
           outputs (nested_flatten schema)),
     log ++ [mkSubmission (pool_name pool) inputs]).
Proof.
  intros Hpool. unfold _process_inputs, bind, submit_task, ret. rewrite Hpool.
  by rewrite (zip_comprehension (λ t p, serialize_torch_tensor t (compression p))).
Qed.

(** C2: for a registered uid, the unary forward call decodes the request's
    wire tensors position by position, submits them as one tuple to the
    forward pool of that expert (one entry added to the submission log),
    encodes the answered tensors, each with the compression of the descriptor
    at its position in the flattened outputs schema, and returns them in one
    response. *)
Theorem rpc_forward_spec experts (request : ExpertRequest) (expert : ExpertBackend)
    (inputs outputs : list Tensor) log :
  experts !! uid request = Some expert →
  Forall2 (λ w t, deserialize_torch_tensor w = Ok t) (tensors request) inputs →
  pool_outcome (forward_pool expert) inputs = Ok outputs →
  rpc_forward experts request log
  = (Ok (mkExpertResponse
           (zip_with (λ t p, serialize_torch_tensor t (compression p))
              outputs (nested_flatten (outputs_schema expert)))),
     log ++ [mkSubmission (pool_name (forward_pool expert)) inputs]).
Proof.
  intros Hexpert Hinputs Hpool. apply comprehension_Ok in Hinputs.
  unfold rpc_forward, bind, lift, experts_getitem.
  rewrite Hinputs, Hexpert.
  by rewrite (process_inputs_answer _ _ _ _ _ Hpool).
Qed.

(** C10: the response holds as many encoded tensors as the shorter of the
    pool's answer and the flattened schema; position [i] of the response is
    the encoding of answer [i] under descriptor [i], and nothing is raised
    when the two lengths differ. *)
Theorem process_inputs_length (inputs outputs : list Tensor) (pool : TaskPool)
    (schema : Schema) log :
  pool_outcome pool inputs = Ok outputs →
  ∃ serialized log',
    _process_inputs inputs pool schema log = (Ok serialized, log') ∧
    length serialized = length outputs `min` length (nested_flatten schema) ∧
    ∀ i t p, outputs !! i = Some t → nested_flatten schema !! i = Some p →
             serialized !! i = Some (serialize_torch_tensor t (compression p)).
Proof.
  intros Hpool. eexists _, _. split; [by apply process_inputs_answer|]. split.
  - apply length_zip_with.
  - intros i t p Ht Hp. rewrite lookup_zip_with, Ht. simpl. by rewrite Hp.
Qed.

Lemma backward_output_split_exchanged experts (requests : list ExpertRequest) log :
  backward_output_split experts requests log
  = forward_output_split (exchanged <$> experts) requests log.
Proof.
  unfold backward_output_split, forward_output_split, bind, lift, experts_getitem.
  destruct (_gather_inputs requests) as [[[u|] inputs]|e]; simpl; try done.
  rewrite lookup_fmap. by destruct (experts !! u).
Qed.

(** C7: the backward calls, unary and streamed, are the forward calls on the
    registry in which every expert has its backward pool in place of its
    forward pool and its schema of input gradients in place of its schema of
    outputs; nothing else differs. *)
Theorem backward_is_exchanged_forward experts :
  (∀ request log,
     rpc_backward experts request log
     = rpc_forward (exchanged <$> experts) request log) ∧
  (∀ g log,
     rpc_backward_stream experts g log
     = rpc_forward_stream (exchanged <$> experts) g log).
Proof.
  split.
  - intros request log. unfold rpc_backward, rpc_forward, bind, lift, experts_getitem.
    destruct (comprehension _ _) as [inputs|e]; [|done].
    rewrite lookup_fmap. by destruct (experts !! uid request).
  - intros g log. unfold rpc_backward_stream, rpc_forward_stream.
    destruct g as [requests| |]; simpl; try done.
    by rewrite backward_output_split_exchanged.
Qed.

(** C6, as the code has it: for a uid that is not in the registry, [rpc_info]
    raises the key error; [rpc_forward] and [rpc_backward] raise it when all
    wire tensors of the request decode, and raise the codec's exception when
    one does not, because they decode before they look the expert up.  In
    each case the exception is the result of that call and nothing is
    submitted to any pool. *)
Theorem unknown_uid_raises experts (u : string) :
  experts !! u = None →
  (∀ log, rpc_info experts (mkExpertUID u) log = (Raise (KeyError (Some u)), log)) ∧
  (∀ ws inputs log,
     Forall2 (λ w t, deserialize_torch_tensor w = Ok t) ws inputs →
     rpc_forward experts (mkExpertRequest u ws) log = (Raise (KeyError (Some u)), log) ∧
     rpc_backward experts (mkExpertRequest u ws) log = (Raise (KeyError (Some u)), log)) ∧
  (∀ ws e log,
     comprehension deserialize_torch_tensor ws = Raise e →
     rpc_forward experts (mkExpertRequest u ws) log = (Raise e, log) ∧
     rpc_backward experts (mkExpertRequest u ws) log = (Raise e, log)).
Proof.
  intros Hu. split; [|split].
  - intros log. unfold rpc_info, bind, lift, experts_getitem. simpl. by rewrite Hu.
  - intros ws inputs log Hinputs. apply comprehension_Ok in Hinputs.
    unfold rpc_forward, rpc_backward, bind, lift, experts_getitem. simpl.
    by rewrite Hinputs, Hu.
  - intros ws e log Hraise.
    unfold rpc_forward, rpc_backward, bind, lift. simpl. by rewrite Hraise.
Qed.

(** C9: a streamed call without any frame gathers no uid and no tensor, and
    then fails at the lookup of the expert with the key error of [None]. *)
Theorem empty_stream_raises_KeyError experts log :
  _gather_inputs [] = Ok (None, []) ∧
  rpc_forward_stream experts (Created []) log = (Raise (KeyError None), Finished, log) ∧
  rpc_backward_stream experts (Created []) log = (Raise (KeyError None), Finished, log).
Proof. done. Qed.

Lemma gather_inputs_agree (first : ExpertRequest) (rest : list ExpertRequest)
    (inputs : list Tensor) :
  Forall (λ r, uid r = uid first) rest →
  Forall2 (λ w t, deserialize_torch_tensor w = Ok t)
    (concat (tensors <$> first :: rest)) inputs →
  _gather_inputs (first :: rest) = Ok (Some (uid first), inputs).
Proof.
  intros Hagree Hinputs. apply comprehension_Ok in Hinputs.
  unfold _gather_inputs, gather_from_rpc. simpl.
  rewrite (gather_parts_agree _ _ Hagree).
  rewrite fmap_cons in Hinputs. simpl concat in Hinputs. by rewrite Hinputs.
Qed.

Lemma gather_inputs_differ (first : ExpertRequest) (rest : list ExpertRequest) :
  Exists (λ r, uid r ≠ uid first) rest →
  _gather_inputs (first :: rest) = Raise uids_differ.
Proof.
  intros Hdiffer. unfold _gather_inputs, gather_from_rpc. simpl.
  by rewrite (gather_parts_differ _ _ Hdiffer).
Qed.

(** C5: the unpacker takes the uid of the first frame.  When a later frame
    carries another uid, gathering raises the assertion error, and so does
    the streamed call, which ends with nothing submitted; no uid is returned.
    When all frames agree, gathering returns that uid with the decoded
    tensors of all frames in frame order. *)
Theorem gather_inputs_uid_check (first : ExpertRequest) (rest : list ExpertRequest) :
  _RequestUnpacker_call _RequestUnpacker_init first
  = (Ok (tensors first), Some (uid first)) ∧
  (Exists (λ r, uid r ≠ uid first) rest →
   _gather_inputs (first :: rest) = Raise uids_differ ∧
   ∀ experts log,
     rpc_forward_stream experts (Created (first :: rest)) log
     = (Raise uids_differ, Finished, log) ∧
     rpc_backward_stream experts (Created (first :: rest)) log
     = (Raise uids_differ, Finished, log)) ∧
  (Forall (λ r, uid r = uid first) rest →
   ∀ inputs,
     Forall2 (λ w t, deserialize_torch_tensor w = Ok t)
       (concat (tensors <$> first :: rest)) inputs →
     _gather_inputs (first :: rest) = Ok (Some (uid first), inputs)).
Proof.
  split; [done|]. split.
  - intros Hdiffer. pose proof (gather_inputs_differ _ _ Hdiffer) as Hraise.
    split; [done|]. intros experts log.
    unfold rpc_forward_stream, rpc_backward_stream, stream_anext,
      forward_output_split, backward_output_split, bind, lift.
    by rewrite Hraise.
  - intros Hagree inputs Hinputs. by apply gather_inputs_agree.
Qed.

(** ** Streamed calls against unary calls *)

Lemma bind_fragments (serialized : list WireTensor) :
  (t ← serialized; split_for_streaming t (DEFAULT_MAX_MSG_SIZE / 2))
  = concat (fragments_of serialized).
Proof.
  induction serialized as [|t ts IH]; [done|].
  unfold fragments_of. rewrite fmap_cons. simpl. f_equal. apply IH.
Qed.

Lemma fragments_reassemble (serialized : list WireTensor) :
  (0 < DEFAULT_MAX_MSG_SIZE / 2)%N →
  Forall2 (λ parts t, combine_from_streaming parts = Some t)
    (fragments_of serialized) serialized.
Proof.
  intros Hcap. unfold fragments_of. apply Forall2_fmap_l, Forall2_same_length_lookup.
  split; [done|]. intros i t t' Ht Ht'. simplify_eq. by apply combine_split.
Qed.

Lemma fragments_payload (serialized : list WireTensor) :
  (0 < DEFAULT_MAX_MSG_SIZE / 2)%N →
  Forall2 (λ parts t, concat (wt_payload <$> parts) = wt_payload t)
    (fragments_of serialized) serialized.
Proof.
  intros Hcap. unfold fragments_of. apply Forall2_fmap_l, Forall2_same_length_lookup.
  split; [done|]. intros i t t' Ht Ht'. simplify_eq.
  by apply split_for_streaming_payload.
Qed.

Lemma fragments_fit (serialized : list WireTensor) :
  Forall (Forall (λ part,
            (N.of_nat (length (wt_payload part)) ≤ DEFAULT_MAX_MSG_SIZE / 2)%N))
    (fragments_of serialized).
Proof.
  unfold fragments_of. apply Forall_fmap, Forall_forall. intros t _. simpl.
  eapply Forall_impl; [apply split_for_streaming_bound|]. simpl. lia.
Qed.

Lemma gather_inputs_agree_eq (first : ExpertRequest) (rest : list ExpertRequest) :
  Forall (λ r, uid r = uid first) rest →
  _gather_inputs (first :: rest)
  = result_bind
      (comprehension deserialize_torch_tensor (concat (tensors <$> first :: rest)))
      (λ inputs, Ok (Some (uid first), inputs)).
Proof.
  intros Hagree. unfold _gather_inputs, gather_from_rpc. simpl.
  rewrite (gather_parts_agree _ _ Hagree).
  by destruct (comprehension _ _).
Qed.

(** The statements before the loop of the streamed call do what the unary
    call does, and then split what it would return. *)
Lemma forward_output_split_unary experts (first : ExpertRequest)
    (rest : list ExpertRequest) log :
  Forall (λ r, uid r = uid first) rest →
  forward_output_split experts (first :: rest) log
  = match rpc_forward experts
            (mkExpertRequest (uid first) (concat (tensors <$> first :: rest))) log with
    | (Ok response, log') => (Ok (concat (fragments_of (response_tensors response))), log')
    | (Raise e, log') => (Raise e, log')
    end.
Proof.
  intros Hagree.
  unfold forward_output_split, rpc_forward, bind, lift, ret.
  rewrite (gather_inputs_agree_eq _ _ Hagree). simpl.
  destruct (comprehension _ _) as [inputs|e]; simpl; [|done].
  destruct (experts !! uid first) as [expert|]; simpl; [|done].
  destruct (_process_inputs _ _ _ log) as [[serialized|e] log']; [|done].
  simpl. by rewrite bind_fragments.
Qed.

Lemma rpc_forward_Ok_inv experts (request : ExpertRequest) log response log' :
  rpc_forward experts request log = (Ok response, log') →
  ∃ expert inputs,
    experts !! uid request = Some expert ∧
    log' = log ++ [mkSubmission (pool_name (forward_pool expert)) inputs].
Proof.
  unfold rpc_forward, bind, lift, experts_getitem, _process_inputs, submit_task, ret.
  destruct (comprehension _ _) as [inputs|e]; [|done].
  destruct (experts !! uid request) as [expert|]; [|done].
  destruct (pool_outcome _ _); [|done].
  intros [= <- <-]. by exists expert, inputs.
Qed.

(** C3, as the code has it: a streamed forward call of at least one frame,
    all frames carrying one uid, ends as the unary forward call with that uid
    and the tensors of all frames in frame order ends.  When the unary call
    answers, the stream consists of the fragments of the tensors of that
    answer, tensor after tensor, the fragments of each tensor reassemble to
    it, and both calls leave the same submission log, one entry longer than
    before; when the unary call raises, the stream raises the same. *)
Theorem forward_stream_refines_unary experts (first : ExpertRequest)
    (rest : list ExpertRequest) log :
  Forall (λ r, uid r = uid first) rest →
  (0 < DEFAULT_MAX_MSG_SIZE / 2)%N →
  match rpc_forward experts
          (mkExpertRequest (uid first) (concat (tensors <$> first :: rest))) log with
  | (Ok response, log') =>
      (∃ expert inputs,
         experts !! uid first = Some expert ∧
         log' = log ++ [mkSubmission (pool_name (forward_pool expert)) inputs]) ∧
      (∀ fuel, length (concat (fragments_of (response_tensors response))) < fuel →
         consume (rpc_forward_stream experts) fuel (Created (first :: rest)) log
         = Some (Ok (frame_of <$> concat (fragments_of (response_tensors response))),
                 Finished, log')) ∧
      Forall2 (λ parts t, combine_from_streaming parts = Some t)
        (fragments_of (response_tensors response)) (response_tensors response)
  | (Raise e, log') =>
      ∀ fuel, 0 < fuel →
        consume (rpc_forward_stream experts) fuel (Created (first :: rest)) log
        = Some (Raise e, Finished, log')
  end.
Proof.
  intros Hagree Hcap.
  pose proof (forward_output_split_unary experts first rest log Hagree) as Hbody.
  destruct (rpc_forward _ _ log) as [[response|e] log'] eqn:Hunary.
  - split; [|split].
    + by apply rpc_forward_Ok_inv in Hunary.
    + intros fuel Hfuel. by apply consume_created.
    + by apply fragments_reassemble.
  - intros [|fuel] Hfuel; [lia|]. unfold rpc_forward_stream. simpl.
    by rewrite Hbody.
Qed.

(** ** Both directions of streaming *)

Lemma rpc_stream_anext (d : Direction) experts :
  rpc_stream d experts = stream_anext (output_split_of d experts).
Proof. by destruct d. Qed.

Lemma output_split_Ok_inv (d : Direction) experts (requests : list ExpertRequest)
    log output_split log' :
  output_split_of d experts requests log = (Ok output_split, log') →
  ∃ u inputs expert serialized,
    _gather_inputs requests = Ok (u, inputs) ∧
    experts_getitem experts u = Ok expert ∧
    _process_inputs inputs (pool_of d expert) (schema_of d expert) log
    = (Ok serialized, log') ∧
    output_split = concat (fragments_of serialized).
Proof.
  destruct d; simpl;
    unfold forward_output_split, backward_output_split, bind, lift, ret;
    (destruct (_gather_inputs requests) as [[u inputs]|e]; simpl; [|done]);
    (destruct (experts_getitem experts u) as [expert|e] eqn:Hexpert; [|done]);
    (destruct (_process_inputs _ _ _ log) as [[serialized|e] log1] eqn:Hproc; [|done]);
    intros [= <- <-]; exists u, inputs, expert, serialized;
    by rewrite bind_fragments.
Qed.

Lemma process_inputs_Ok_inv (inputs : list Tensor) (pool : TaskPool) (schema : Schema)
    log serialized log' :
  _process_inputs inputs pool schema log = (Ok serialized, log') →
  log' = log ++ [mkSubmission (pool_name pool) inputs].
Proof.
  unfold _process_inputs, bind, submit_task, ret.
  destruct (pool_outcome pool inputs); [|done]. by intros [= <- <-].
Qed.

(** What the statements before the loop return when gathering, the lookup
    and the pool all succeed. *)
Lemma output_split_answer (d : Direction) experts (expert : ExpertBackend)
    (first : ExpertRequest) (rest : list ExpertRequest)
    (inputs outputs : list Tensor) log :
  experts !! uid first = Some expert →
  Forall (λ r, uid r = uid first) rest →
  Forall2 (λ w t, deserialize_torch_tensor w = Ok t)
    (concat (tensors <$> first :: rest)) inputs →
  pool_outcome (pool_of d expert) inputs = Ok outputs →
  output_split_of d experts (first :: rest) log
  = (Ok (concat (fragments_of (serialized_outputs outputs (schema_of d expert)))),
     log ++ [mkSubmission (pool_name (pool_of d expert)) inputs]).
Proof.
  intros Hexpert Hagree Hinputs Hpool.
  pose proof (gather_inputs_agree first rest inputs Hagree Hinputs) as Hgather.
  destruct d; simpl in *;
    unfold forward_output_split, backward_output_split, bind, lift, experts_getitem, ret;
    rewrite Hgather; simpl; rewrite Hexpert;
    rewrite (process_inputs_answer _ _ _ _ _ Hpool);
    by rewrite bind_fragments.
Qed.

Lemma stream_frames_fit (serialized : list WireTensor) :
  Forall (λ frame, ∃ part,
            response_tensors frame = [part] ∧
            (N.of_nat (length (wt_payload part)) ≤ DEFAULT_MAX_MSG_SIZE / 2)%N)
    (stream_frames serialized).
Proof.
  unfold stream_frames. apply Forall_fmap.
  eapply Forall_impl; [apply Forall_concat, fragments_fit|].
  intros part Hfit. by exists part.
Qed.

(** C4: a streamed call, forward or backward, whose frames carry one
    registered uid, whose wire tensors decode and whose pool answers, yields
    when read to its end exactly the fragments of the encoded answer: one
    fragment per frame, all fragments of the first tensor before those of the
    second and so on.  Reading returns this for every fuel above the number
    of frames and returns nothing else for any fuel.  No fragment has more
    payload bytes than half of [DEFAULT_MAX_MSG_SIZE], and the payloads of
    the fragments of one tensor join to the payload of that tensor. *)
Theorem stream_fragments_bounded_ordered (d : Direction) experts
    (expert : ExpertBackend) (first : ExpertRequest) (rest : list ExpertRequest)
    (inputs outputs : list Tensor) log :
  (0 < DEFAULT_MAX_MSG_SIZE / 2)%N →
  experts !! uid first = Some expert →
  Forall (λ r, uid r = uid first) rest →
  Forall2 (λ w t, deserialize_torch_tensor w = Ok t)
    (concat (tensors <$> first :: rest)) inputs →
  pool_outcome (pool_of d expert) inputs = Ok outputs →
  (∀ fuel,
     length (stream_frames (serialized_outputs outputs (schema_of d expert))) < fuel →
     consume (rpc_stream d experts) fuel (Created (first :: rest)) log
     = Some (Ok (stream_frames (serialized_outputs outputs (schema_of d expert))),
             Finished,
             log ++ [mkSubmission (pool_name (pool_of d expert)) inputs])) ∧
  (∀ fuel r,
     consume (rpc_stream d experts) fuel (Created (first :: rest)) log = Some r →
     r = (Ok (stream_frames (serialized_outputs outputs (schema_of d expert))),
          Finished,
          log ++ [mkSubmission (pool_name (pool_of d expert)) inputs])) ∧
  Forall (λ frame, ∃ part,
            response_tensors frame = [part] ∧
            (N.of_nat (length (wt_payload part)) ≤ DEFAULT_MAX_MSG_SIZE / 2)%N)
    (stream_frames (serialized_outputs outputs (schema_of d expert))) ∧
  Forall2 (λ parts t, concat (wt_payload <$> parts) = wt_payload t)
    (fragments_of (serialized_outputs outputs (schema_of d expert)))
    (serialized_outputs outputs (schema_of d expert)).
Proof.
  intros Hcap Hexpert Hagree Hinputs Hpool.
  pose proof (output_split_answer d experts expert first rest inputs outputs log
                Hexpert Hagree Hinputs Hpool) as Hbody.
  rewrite rpc_stream_anext. split; [|split; [|split]].
  - intros fuel Hfuel. unfold stream_frames in *. rewrite length_fmap in Hfuel.
    by apply consume_created.
  - intros fuel r Hread. by apply (consume_created_Some _ _ _ _ _ _ _ Hbody Hread).
  - apply stream_frames_fit.
  - by apply fragments_payload.
Qed.

(** C8, as the code has it: creating the stream runs nothing.  The first step
    that yields a frame has run the whole body up to its loop: one submission
    has been logged and the complete list of fragments is held by the
    suspended generator, of which the first is the yielded frame.  Every
    later step yields the fragment at the next index, or ends the stream, and
    submits nothing; once finished the stream stays finished. *)
Theorem stream_first_step_prepares_all (d : Direction) experts
    (requests : list ExpertRequest) log frame g log' :
  rpc_stream d experts (Created requests) log = (Ok (Some frame), g, log') →
  ∃ part parts,
    output_split_of d experts requests log = (Ok (part :: parts), log') ∧
    frame = frame_of part ∧
    g = Suspended (part :: parts) 1 ∧
    (∃ submission, log' = log ++ [submission]) ∧
    (∀ next log2,
       rpc_stream d experts (Suspended (part :: parts) next) log2
       = match (part :: parts) !! next with
         | Some part' => (Ok (Some (frame_of part')), Suspended (part :: parts) (S next), log2)
         | None => (Ok None, Finished, log2)
         end) ∧
    (∀ log2, rpc_stream d experts Finished log2 = (Ok None, Finished, log2)).
Proof.
  rewrite rpc_stream_anext. simpl.
  destruct (output_split_of d experts requests log) as [[output_split|e] log1] eqn:Hbody;
    [|done].
  unfold resume_loop. destruct output_split as [|part parts]; [done|]. simpl.
  intros [= <- <- <-]. exists part, parts. repeat split.
  apply output_split_Ok_inv in Hbody as (u & inputs & expert & serialized & _ & _ & Hproc & _).
  apply process_inputs_Ok_inv in Hproc. eauto.
Qed.

End Claims.

(** C1, against the code: [run] resolves [ready] with a result before it has
    called the transport at all, whatever the transport will answer; when
    joining then raises, a second resolution, with the exception, follows the
    first. *)
Theorem run_resolves_ready_before_joining (e : exn)
    (registration : Lifecycle.outcome) (serving : option Lifecycle.raised) :
  (∀ env, ∃ later,
     (Lifecycle.run env).1
     = [Lifecycle.set_num_threads 1; Lifecycle.switch_to_uvloop;
        Lifecycle.ready_set_result; Lifecycle.call_replicate_p2p] ++ later) ∧
  Lifecycle.resolutions
    (Lifecycle.run
       (Lifecycle.mkStartup (Lifecycle.Raises (Lifecycle.Exception e))
          registration serving))
  = [Lifecycle.ready_set_result; Lifecycle.ready_set_exception e].
Proof.
  split; [|done].
  intros [[|[e1|]] [|[e2|]] [[e3|]|]]; by eexists.
Qed.

(** * Further properties of the handler *)

(** ** What the unpacker lets through *)

Lemma gather_parts_Ok_inv (u : string) (requests : list ExpertRequest)
    (parts : list WireTensor) (slot : _RequestUnpacker) :
  gather_parts _RequestUnpacker_call (Some u) requests = (Ok parts, slot) →
  Forall (λ r, uid r = u) requests ∧
  parts = concat (tensors <$> requests) ∧ slot = Some u.
Proof.
  revert parts slot. induction requests as [|r rs IH]; intros parts slot; simpl.
  - intros [= <- <-]. by repeat split.
  - destruct (String.eqb u (uid r)) eqn:Heq; [|done].
    apply String.eqb_eq in Heq.
    destruct (gather_parts _ _ rs) as [[ps|e] slot'] eqn:Hrec; [|done].
    intros [= <- <-]. destruct (IH _ _ eq_refl) as (Hall & -> & ->).
    split; [by constructor|]. by split.
Qed.

Section Extras.
Context `{Collaborators}.
Implicit Types (experts : gmap string ExpertBackend) (log : list Submission).

(** X1: gathering answers only for frames that agree.  When [_gather_inputs]
    returns a uid and tensors, either there was no frame, the uid is [None]
    and there is no tensor, or the uid is that of the first frame, every
    later frame carries it too, and the tensors are the decodings of the wire
    tensors of all frames in frame order. *)
Theorem gather_inputs_Ok_inv (requests : list ExpertRequest) (u : option string)
    (inputs : list Tensor) :
  _gather_inputs requests = Ok (u, inputs) →
  match requests with
  | [] => u = None ∧ inputs = []
  | first :: rest =>
      u = Some (uid first) ∧
      Forall (λ r, uid r = uid first) rest ∧
      Forall2 (λ w t, deserialize_torch_tensor w = Ok t)
        (concat (tensors <$> requests)) inputs
  end.
Proof.
  unfold _gather_inputs, gather_from_rpc. destruct requests as [|first rest]; simpl.
  - by intros [= <- <-].
  - destruct (gather_parts _ _ rest) as [[ps|e] slot] eqn:Hrest; [|done].
    apply gather_parts_Ok_inv in Hrest as (Hagree & -> & ->).
    destruct (comprehension _ _) as [decoded|e] eqn:Hdecode; [|done].
    intros [= <- <-]. repeat split; [done|]. by apply comprehension_Ok.
Qed.

(** X2: how the tensors are spread over the frames does not matter.  Two
    streams of at least one frame each, with one uid throughout and the same
    wire tensors in the same order, are gathered alike and make the streamed
    procedures, forward and backward, take the same first step. *)
Theorem gather_inputs_framing_independent (first first' : ExpertRequest)
    (rest rest' : list ExpertRequest) :
  uid first = uid first' →
  Forall (λ r, uid r = uid first) rest →
  Forall (λ r, uid r = uid first') rest' →
  concat (tensors <$> first :: rest) = concat (tensors <$> first' :: rest') →
  _gather_inputs (first :: rest) = _gather_inputs (first' :: rest') ∧
  ∀ d experts log,
    rpc_stream d experts (Created (first :: rest)) log
    = rpc_stream d experts (Created (first' :: rest')) log.
Proof.
  intros Huid Hagree Hagree' Hsame.
  assert (_gather_inputs (first :: rest) = _gather_inputs (first' :: rest')) as Hgather.
  { rewrite (gather_inputs_agree_eq _ _ Hagree), (gather_inputs_agree_eq _ _ Hagree').
    by rewrite Hsame, Huid. }
  split; [done|]. intros d experts log.
  destruct d; simpl;
    unfold rpc_forward_stream, rpc_backward_stream, stream_anext,
      forward_output_split, backward_output_split, bind, lift;
    by rewrite Hgather.
Qed.

(** X3: what a unary call leaves in the submission log.  Either the call
    raised before it reached a pool and the log is as it was, or the uid is
    registered, the request's tensors decoded, exactly one entry was appended
    after the earlier ones, for the pool of the call's direction of that very
    expert and with the decoded tensors, and the call ends as that pool
    answered: with the pool's exception, or with the encoded answer. *)
Theorem unary_call_log (d : Direction) experts (request : ExpertRequest) log :
  (∃ e, rpc_unary d experts request log = (Raise e, log)) ∨
  (∃ expert inputs,
     experts !! uid request = Some expert ∧
     Forall2 (λ w t, deserialize_torch_tensor w = Ok t) (tensors request) inputs ∧
     rpc_unary d experts request log
     = (result_bind (pool_outcome (pool_of d expert) inputs)
          (λ outputs,
             Ok (mkExpertResponse
                   (zip_with (λ t p, serialize_torch_tensor t (compression p))
                      outputs (nested_flatten (schema_of d expert))))),
        log ++ [mkSubmission (pool_name (pool_of d expert)) inputs])).
Proof.
  destruct (comprehension deserialize_torch_tensor (tensors request))
    as [inputs|e] eqn:Hdecode.
  - destruct (experts !! uid request) as [expert|] eqn:Hexpert.
    + right. exists expert, inputs. split; [done|].
      split; [by apply comprehension_Ok|].
      destruct d; simpl;
        unfold rpc_forward, rpc_backward, bind, lift, experts_getitem,
          _process_inputs, submit_task, ret;
        rewrite Hdecode, Hexpert;
        (destruct (pool_outcome _ inputs) as [outputs|e]; simpl; [|done]);
        by rewrite (zip_comprehension
                      (λ t p, serialize_torch_tensor t (compression p))).
    + left. exists (KeyError (Some (uid request))).
      destruct d; simpl;
        unfold rpc_forward, rpc_backward, bind, lift, experts_getitem;
        by rewrite Hdecode, Hexpert.
  - left. exists e.
    destruct d; simpl; unfold rpc_forward, rpc_backward, bind, lift;
      by rewrite Hdecode.
Qed.

Lemma comprehension_first_Raise {A B} (f : A → result B) (good : list A) (bad : A)
    (rest : list A) (decoded : list B) e :
  Forall2 (λ x y, f x = Ok y) good decoded →
  f bad = Raise e →
  comprehension f (good ++ bad :: rest) = Raise e.
Proof.
  intros Hgood Hbad. induction Hgood as [|x y xs ys Hx _ IH]; simpl.
  - by rewrite Hbad.
  - by rewrite Hx, IH.
Qed.

(** X4: the first wire tensor that does not decode decides how a unary call
    ends.  Whatever follows it in the request, and whether or not the uid is
    registered, the call raises the exception of that tensor and submits
    nothing. *)
Theorem first_malformed_tensor_decides (d : Direction) experts (u : string)
    (good : list WireTensor) (bad : WireTensor) (rest : list WireTensor)
    (decoded : list Tensor) e log :
  Forall2 (λ w t, deserialize_torch_tensor w = Ok t) good decoded →
  deserialize_torch_tensor bad = Raise e →
  rpc_unary d experts (mkExpertRequest u (good ++ bad :: rest)) log = (Raise e, log).
Proof.
  intros Hgood Hbad.
  pose proof (comprehension_first_Raise _ _ _ rest _ _ Hgood Hbad) as Hraise.
  destruct d; simpl; unfold rpc_forward, rpc_backward, bind, lift; simpl;
    by rewrite Hraise.
Qed.

(** ** Stepping a stream *)

Lemma output_split_log (d : Direction) experts (requests : list ExpertRequest) log :
  (output_split_of d experts requests log).2 = log ∨
  ∃ submission, (output_split_of d experts requests log).2 = log ++ [submission].
Proof.
  destruct d; simpl;
    unfold forward_output_split, backward_output_split, bind, lift,
      _process_inputs, submit_task, ret;
    (destruct (_gather_inputs requests) as [[u inputs]|e]; simpl; [|by left]);
    (destruct (experts_getitem experts u) as [expert|e]; simpl; [|by left]);
    right; eexists; by destruct (pool_outcome _ inputs).
Qed.

Lemma step_n_started (body : list ExpertRequest → M (list WireTensor)) (n : nat)
    (g : StreamState) log :
  is_created g = false →
  (step_n (stream_anext body) n g log).2 = log.
Proof.
  revert g. induction n as [|n IH]; intros g Hg; [done|].
  simpl. destruct g as [requests|output_split next|]; [done| |]; simpl.
  - unfold resume_loop. by destruct (output_split !! next); simpl; apply IH.
  - by apply IH.
Qed.

(** X5: a stream submits at most once, however often it is stepped.  After
    any number of [anext] calls on a created stream, forward or backward, the
    submission log is the earlier log, or the earlier log with one entry
    appended; stepping a stream that has started leaves the log alone. *)
Theorem stream_submits_at_most_once (d : Direction) experts (n : nat) log :
  (∀ requests,
     (step_n (rpc_stream d experts) n (Created requests) log).2 = log ∨
     ∃ submission,
       (step_n (rpc_stream d experts) n (Created requests) log).2
       = log ++ [submission]) ∧
  (∀ output_split next,
     (step_n (rpc_stream d experts) n (Suspended output_split next) log).2 = log) ∧
  (step_n (rpc_stream d experts) n Finished log).2 = log.
Proof.
  rewrite rpc_stream_anext. split; [|split].
  - intros requests. destruct n as [|n]; [by left|]. simpl.
    pose proof (output_split_log d experts requests log) as Hlog.
    destruct (output_split_of d experts requests log) as [[output_split|e] log'];
      simpl in *.
    + unfold resume_loop.
      destruct (output_split !! 0); simpl; by rewrite step_n_started.
    + by rewrite step_n_started.
  - intros output_split next. by apply step_n_started.
  - by apply step_n_started.
Qed.

(** X6: a streamed call for a uid that is not registered.  When the frames,
    at least one, all carry that uid and all their wire tensors decode, the
    first step of the stream, forward or backward, raises the key error of
    that uid; the stream is finished and nothing has been submitted. *)
Theorem stream_unknown_uid (d : Direction) experts (first : ExpertRequest)
    (rest : list ExpertRequest) (inputs : list Tensor) log :
  experts !! uid first = None →
  Forall (λ r, uid r = uid first) rest →
  Forall2 (λ w t, deserialize_torch_tensor w = Ok t)
    (concat (tensors <$> first :: rest)) inputs →
  rpc_stream d experts (Created (first :: rest)) log
  = (Raise (KeyError (Some (uid first))), Finished, log).
Proof.
  intros Hunknown Hagree Hinputs.
  pose proof (gather_inputs_agree first rest inputs Hagree Hinputs) as Hgather.
  destruct d; simpl;
    unfold rpc_forward_stream, rpc_backward_stream, stream_anext,
      forward_output_split, backward_output_split, bind, lift, experts_getitem;
    rewrite Hgather; simpl; by rewrite Hunknown.
Qed.

Lemma backward_output_split_unary experts (first : ExpertRequest)
    (rest : list ExpertRequest) log :
  Forall (λ r, uid r = uid first) rest →
  backward_output_split experts (first :: rest) log
  = match rpc_backward experts
            (mkExpertRequest (uid first) (concat (tensors <$> first :: rest))) log with
    | (Ok response, log') => (Ok (concat (fragments_of (response_tensors response))), log')
    | (Raise e, log') => (Raise e, log')
    end.
Proof.
  intros Hagree.
  unfold backward_output_split, rpc_backward, bind, lift, ret.
  rewrite (gather_inputs_agree_eq _ _ Hagree). simpl.
  destruct (comprehension _ _) as [inputs|e]; simpl; [|done].
  destruct (experts !! uid first) as [expert|]; simpl; [|done].
  destruct (_process_inputs _ _ _ log) as [[serialized|e] log']; [|done].
  simpl. by rewrite bind_fragments.
Qed.

(** X7: a streamed backward call of at least one frame, all frames carrying
    one uid, ends as the unary backward call with that uid and the tensors of
    all frames in frame order ends.  When the unary call answers, the stream
    read to its end consists of the fragments of the tensors of that answer,
    tensor after tensor, the fragments of each tensor reassemble to it, and
    the submission log is the same; when the unary call raises, the stream
    raises the same with the same log. *)
Theorem backward_stream_refines_unary experts (first : ExpertRequest)
    (rest : list ExpertRequest) log :
  Forall (λ r, uid r = uid first) rest →
  (0 < DEFAULT_MAX_MSG_SIZE / 2)%N →
  match rpc_backward experts
          (mkExpertRequest (uid first) (concat (tensors <$> first :: rest))) log with
  | (Ok response, log') =>
      (∀ fuel, length (concat (fragments_of (response_tensors response))) < fuel →
         consume (rpc_backward_stream experts) fuel (Created (first :: rest)) log
         = Some (Ok (frame_of <$> concat (fragments_of (response_tensors response))),
                 Finished, log')) ∧
      Forall2 (λ parts t, combine_from_streaming parts = Some t)
        (fragments_of (response_tensors response)) (response_tensors response)
  | (Raise e, log') =>
      ∀ fuel, 0 < fuel →
        consume (rpc_backward_stream experts) fuel (Created (first :: rest)) log
        = Some (Raise e, Finished, log')
  end.
Proof.
  intros Hagree Hcap.
  pose proof (backward_output_split_unary experts first rest log Hagree) as Hbody.
  destruct (rpc_backward _ _ log) as [[response|e] log'] eqn:Hunary.
  - split.
    + intros fuel Hfuel. by apply consume_created.
    + by apply fragments_reassemble.
  - intros [|fuel] Hfuel; [lia|]. unfold rpc_backward_stream. simpl.
    by rewrite Hbody.
Qed.

(** ** One expert at a time *)

Lemma stream_anext_started (body : list ExpertRequest → M (list WireTensor))
    (g : StreamState) log :
  is_created (stream_anext body g log).1.2 = false.
Proof.
  destruct g as [requests|output_split next|]; simpl; [| |done].
  - destruct (body requests log) as [[output_split|e] log']; [|done].
    unfold resume_loop. by destruct (output_split !! 0).
  - unfold resume_loop. by destruct (output_split !! next).
Qed.

(** Once a stream has started, its steps no longer run the body. *)
Lemma step_n_started_ext (body body' : list ExpertRequest → M (list WireTensor))
    (n : nat) (g : StreamState) log :
  is_created g = false →
  step_n (stream_anext body) n g log = step_n (stream_anext body') n g log.
Proof.
  revert g log. induction n as [|n IH]; intros g log Hg; [done|].
  destruct g as [requests|output_split next|]; [done| |]; simpl.
  - unfold resume_loop. by destruct (output_split !! next); simpl; apply IH.
  - by apply IH.
Qed.

(** X8: a unary call depends on the registry only through the entry of the
    uid it names.  Two registries that agree on that uid, whatever else they
    hold, give the same result and the same log for [rpc_info] and for the
    forward and backward calls. *)
Theorem unary_calls_local experts (experts' : gmap string ExpertBackend) (u : string) :
  experts !! u = experts' !! u →
  (∀ log, rpc_info experts (mkExpertUID u) log = rpc_info experts' (mkExpertUID u) log) ∧
  (∀ d ws log,
     rpc_unary d experts (mkExpertRequest u ws) log
     = rpc_unary d experts' (mkExpertRequest u ws) log).
Proof.
  intros Hsame. split.
  - intros log. unfold rpc_info, bind, lift, experts_getitem. simpl. by rewrite Hsame.
  - intros d ws log.
    destruct d; simpl; unfold rpc_forward, rpc_backward, bind, lift, experts_getitem;
      simpl; by rewrite Hsame.
Qed.

(** X9: a streamed call depends on the registry only through the entry of
    the uid of its first frame: two registries that agree on it make every
    step of the stream, from its creation on, the same. *)
Theorem stream_calls_local (d : Direction) experts
    (experts' : gmap string ExpertBackend) (first : ExpertRequest)
    (rest : list ExpertRequest) :
  experts !! uid first = experts' !! uid first →
  ∀ n log,
    step_n (rpc_stream d experts) n (Created (first :: rest)) log
    = step_n (rpc_stream d experts') n (Created (first :: rest)) log.
Proof.
  intros Hsame n log.
  assert (output_split_of d experts (first :: rest) log
          = output_split_of d experts' (first :: rest) log) as Hbody.
  { destruct d; simpl;
      unfold forward_output_split, backward_output_split, bind, lift;
      (destruct (_gather_inputs (first :: rest)) as [[u inputs]|e] eqn:Hgather;
         [|done]);
      apply gather_inputs_Ok_inv in Hgather as (-> & _ & _);
      simpl; unfold experts_getitem; by rewrite Hsame. }
  assert (stream_anext (output_split_of d experts) (Created (first :: rest)) log
          = stream_anext (output_split_of d experts') (Created (first :: rest)) log)
    as Hstep by (simpl; by rewrite Hbody).
  rewrite !rpc_stream_anext. destruct n as [|n]; [done|].
  cbn [step_n]. rewrite Hstep.
  apply step_n_started_ext, stream_anext_started.
Qed.

End Extras.

(** ** The process body *)

(** X10: an interrupt is logged and not reported.  When the first call of
    [_run] that does not return raises a [KeyboardInterrupt], [run] ends
    normally, its last call being the debug message, and the only resolution
    of [ready] is the one made before the loop; in every other scenario no
    debug message is logged. *)
Theorem run_interrupt_logged_not_reported (env : Lifecycle.Startup) :
  (Lifecycle.interrupted env = true →
   Lifecycle.resolutions (Lifecycle.run env) = [Lifecycle.ready_set_result] ∧
   (Lifecycle.run env).2 = Lifecycle.Completed ∧
   last (Lifecycle.run env).1
   = Some (Lifecycle.log_debug "Caught KeyboardInterrupt, shutting down")) ∧
  (Lifecycle.interrupted env = false →
   ∀ msg, ¬ In (Lifecycle.log_debug msg) (Lifecycle.run env).1).
Proof.
  destruct env as [[|[e1|]] [|[e2|]] [[e3|]|]]; split; intros Hint; try done;
    intros msg Hin; cbv in Hin; intuition discriminate.
Qed.

(** X11: handlers are registered only on a transport that was joined, and
    the wait begins only after both.  [add_p2p_handlers] is called exactly
    when [replicate_p2p] returned, always with [balanced=True]; the future
    that never resolves is awaited exactly when both calls returned. *)
Theorem run_registers_after_joining (env : Lifecycle.Startup) :
  (In (Lifecycle.call_add_p2p_handlers true) (Lifecycle.run env).1
   ↔ Lifecycle.replicate_p2p env = Lifecycle.Returns) ∧
  (In Lifecycle.await_future (Lifecycle.run env).1
   ↔ Lifecycle.replicate_p2p env = Lifecycle.Returns ∧
     Lifecycle.add_p2p_handlers env = Lifecycle.Returns) ∧
  ¬ In (Lifecycle.call_add_p2p_handlers false) (Lifecycle.run env).1.
Proof.
  destruct env as [[|[e1|]] [|[e2|]] [[e3|]|]]; cbv; intuition discriminate.
Qed.

(** * The statements at work on the small setting *)

Import Toy.

Lemma rpc_forward_spec_witness :
  rpc_forward experts (mkExpertRequest "expert0" [abc]) []
  = (Ok (mkExpertResponse [encode (wt_payload abc) 0%N; encode cba 2%N]),
     [mkSubmission "expert0.forward" [wt_payload abc]]).
Proof.
  apply (rpc_forward_spec experts (mkExpertRequest "expert0" [abc]) expert0
           [wt_payload abc] [wt_payload abc; cba] []).
  - reflexivity.
  - repeat constructor.
  - reflexivity.
Defined.

Lemma process_inputs_length_witness :
  ∃ serialized log',
    _process_inputs [wt_payload abc] mirror (Descr plain) [] = (Ok serialized, log') ∧
    length serialized = 1 ∧
    ∀ i t p, [wt_payload abc; cba] !! i = Some t → [plain] !! i = Some p →
             serialized !! i = Some (encode t (compression p)).
Proof.
  apply (process_inputs_length (H:=collaborators) [wt_payload abc] [wt_payload abc; cba] mirror
           (Descr plain) []).
  reflexivity.
Defined.

Lemma unknown_uid_raises_witness :
  experts !! "expert1" = None ∧
  rpc_info experts (mkExpertUID "expert1") [] = (Raise (KeyError (Some "expert1")), []) ∧
  rpc_forward experts (mkExpertRequest "expert1" [abc]) []
  = (Raise (KeyError (Some "expert1")), []) ∧
  rpc_backward experts (mkExpertRequest "expert1" [abc]) []
  = (Raise (KeyError (Some "expert1")), []) ∧
  rpc_forward experts (mkExpertRequest "expert1" [garbage]) []
  = (Raise (RuntimeError "malformed tensor"), []) ∧
  rpc_backward experts (mkExpertRequest "expert1" [garbage]) []
  = (Raise (RuntimeError "malformed tensor"), []).
Proof.
  assert (experts !! "expert1" = None) as Hunknown by reflexivity.
  destruct (unknown_uid_raises experts "expert1" Hunknown) as (Hinfo & Hdecoded & Hmalformed).
  destruct (Hdecoded [abc] [wt_payload abc] []) as [Hfwd Hbwd]; [repeat constructor|].
  destruct (Hmalformed [garbage] (RuntimeError "malformed tensor") [])
    as [Hfwd' Hbwd']; [reflexivity|].
  exact (conj Hunknown (conj (Hinfo []) (conj Hfwd (conj Hbwd (conj Hfwd' Hbwd'))))).
Defined.

(** Against C6 as stated: a request for an unknown uid whose tensor does not
    decode fails with the codec's exception, not with the key error. *)
Lemma unknown_uid_malformed_tensor :
  experts !! "expert1" = None ∧
  (rpc_forward experts (mkExpertRequest "expert1" [garbage]) []).1
  = Raise (RuntimeError "malformed tensor") ∧
  (rpc_forward experts (mkExpertRequest "expert1" [garbage]) []).1
  ≠ Raise (KeyError (Some "expert1")).
Proof. split; [reflexivity|]. split; [reflexivity | discriminate]. Qed.

Lemma gather_inputs_uid_check_witness :
  _gather_inputs [mkExpertRequest "expert0" []; mkExpertRequest "expert1" [abc]]
  = Raise uids_differ ∧
  rpc_forward_stream experts
    (Created [mkExpertRequest "expert0" []; mkExpertRequest "expert1" [abc]]) []
  = (Raise uids_differ, Finished, []) ∧
  _gather_inputs [mkExpertRequest "expert0" [abc]; mkExpertRequest "expert0" [abc]]
  = Ok (Some "expert0", [wt_payload abc; wt_payload abc]).
Proof.
  destruct (gather_inputs_uid_check (mkExpertRequest "expert0" [])
              [mkExpertRequest "expert1" [abc]]) as (_ & Hdiffer & _).
  destruct Hdiffer as [Hgather Hstream].
  { apply Exists_cons_hd. simpl. discriminate. }
  destruct (gather_inputs_uid_check (mkExpertRequest "expert0" [abc])
              [mkExpertRequest "expert0" [abc]]) as (_ & _ & Hagree).
  split; [exact Hgather|]. split; [exact (proj1 (Hstream experts []))|].
  apply Hagree; repeat constructor.
Defined.

(** Against C3 as stated: for the registered "expert0" and the empty list of
    tensors, the stream of no frame satisfies both conditions on the frames,
    yet it raises where the unary call answers. *)
Lemma empty_stream_differs_from_unary :
  let frames : list ExpertRequest := [] in
  experts !! "expert0" = Some expert0 ∧
  Forall (λ r, uid r = "expert0") frames ∧
  rpc_forward experts (mkExpertRequest "expert0" (concat (tensors <$> frames))) []
  = (Ok (mkExpertResponse []), [mkSubmission "expert0.forward" []]) ∧
  consume (rpc_forward_stream experts) 1 (Created frames) []
  = Some (Raise (KeyError None), Finished, []).
Proof. split; [reflexivity|]. split; [constructor|]. split; reflexivity. Qed.

Lemma forward_stream_refines_unary_witness :
  consume (rpc_forward_stream experts) 5
    (Created [mkExpertRequest "expert0" []; mkExpertRequest "expert0" [abc]]) []
  = Some (Ok (frame_of <$>
                concat (fragments_of [encode (wt_payload abc) 0%N; encode cba 2%N])),
          Finished, [mkSubmission "expert0.forward" [wt_payload abc]]).
Proof.
  pose proof (forward_stream_refines_unary experts (mkExpertRequest "expert0" [])
                [mkExpertRequest "expert0" [abc]] []) as Hrefines.
  simpl in Hrefines.
  destruct Hrefines as (_ & Hstream & _).
  - repeat constructor.
  - reflexivity.
  - apply Hstream. simpl. lia.
Defined.

Lemma stream_fragments_bounded_ordered_witness :
  consume (rpc_stream Forward experts) 5
    (Created [mkExpertRequest "expert0" []; mkExpertRequest "expert0" [abc]]) []
  = Some (Ok [frame_of (mkWireTensor "uint8" [3%N] 0%N [Byte.x61; Byte.x62]);
              frame_of (mkWireTensor "uint8" [3%N] 0%N [Byte.x63]);
              frame_of (mkWireTensor "uint8" [3%N] 2%N [Byte.x63; Byte.x62]);
              frame_of (mkWireTensor "uint8" [3%N] 2%N [Byte.x61])],
          Finished, [mkSubmission "expert0.forward" [wt_payload abc]]) ∧
  consume (rpc_stream Backward experts) 3
    (Created [mkExpertRequest "expert0" [abc]]) []
  = Some (Ok [frame_of (mkWireTensor "uint8" [3%N] 0%N [Byte.x61; Byte.x62]);
              frame_of (mkWireTensor "uint8" [3%N] 0%N [Byte.x63])],
          Finished, [mkSubmission "expert0.backward" [wt_payload abc]]).
Proof.
  split.
  - destruct (stream_fragments_bounded_ordered (H:=collaborators) Forward experts
                expert0 (mkExpertRequest "expert0" [])
                [mkExpertRequest "expert0" [abc]]
                [wt_payload abc] [wt_payload abc; cba] []) as (Hread & _).
    + reflexivity.
    + reflexivity.
    + repeat constructor.
    + repeat constructor.
    + reflexivity.
    + apply Hread. simpl. lia.
  - destruct (stream_fragments_bounded_ordered (H:=collaborators) Backward experts
                expert0 (mkExpertRequest "expert0" [abc]) []
                [wt_payload abc] [wt_payload abc] []) as (Hread & _).
    + reflexivity.
    + reflexivity.
    + constructor.
    + repeat constructor.
    + reflexivity.
    + apply Hread. simpl. lia.
Defined.

Lemma stream_first_step_prepares_all_witness :
  ∃ part parts,
    forward_output_split experts [mkExpertRequest "expert0" [abc]] []
    = (Ok (part :: parts), [mkSubmission "expert0.forward" [wt_payload abc]]) ∧
    frame_of (mkWireTensor "uint8" [3%N] 0%N [Byte.x61; Byte.x62]) = frame_of part ∧
    Suspended
      (concat (fragments_of [encode (wt_payload abc) 0%N; encode cba 2%N])) 1
    = Suspended (part :: parts) 1.
Proof.
  destruct (stream_first_step_prepares_all (H:=collaborators) Forward experts
              [mkExpertRequest "expert0" [abc]] []
              (frame_of (mkWireTensor "uint8" [3%N] 0%N [Byte.x61; Byte.x62]))
              (Suspended
                 (concat (fragments_of [encode (wt_payload abc) 0%N; encode cba 2%N])) 1)
              [mkSubmission (H:=collaborators) "expert0.forward" [wt_payload abc]])
    as (part & parts & Hbody & Hframe & Hstate & _).
  - reflexivity.
  - exists part, parts. exact (conj Hbody (conj Hframe Hstate)).
Defined.

(** Against C8 as stated: when the first frame of this response is yielded,
    the three fragments that follow it have been produced already and are
    held in the list the generator iterates over. *)
Lemma first_frame_after_all_fragments :
  rpc_forward_stream experts (Created [mkExpertRequest "expert0" [abc]]) []
  = (Ok (Some (frame_of (mkWireTensor "uint8" [3%N] 0%N [Byte.x61; Byte.x62]))),
     Suspended
       [mkWireTensor "uint8" [3%N] 0%N [Byte.x61; Byte.x62];
        mkWireTensor "uint8" [3%N] 0%N [Byte.x63];
        mkWireTensor "uint8" [3%N] 2%N [Byte.x63; Byte.x62];
        mkWireTensor "uint8" [3%N] 2%N [Byte.x61]]
       1,
     [mkSubmission "expert0.forward" [wt_payload abc]]).
Proof. reflexivity. Qed.

(** ** The further properties on the small setting *)

Lemma gather_inputs_Ok_inv_witness :
  Some "expert0" = Some "expert0" ∧
  Forall (λ r, uid r = "expert0") [mkExpertRequest "expert0" [abc]] ∧
  Forall2 (λ w t, decode w = Ok t) [abc] [wt_payload abc].
Proof.
  apply (gather_inputs_Ok_inv (H:=collaborators)
           [mkExpertRequest "expert0" []; mkExpertRequest "expert0" [abc]]
           (Some "expert0") [wt_payload abc]).
  reflexivity.
Defined.

Lemma gather_inputs_framing_independent_witness :
  _gather_inputs [mkExpertRequest "expert0" []; mkExpertRequest "expert0" [abc; abc]]
  = _gather_inputs [mkExpertRequest "expert0" [abc]; mkExpertRequest "expert0" [abc]].
Proof.
  apply (gather_inputs_framing_independent (H:=collaborators)
           (mkExpertRequest "expert0" []) (mkExpertRequest "expert0" [abc])
           [mkExpertRequest "expert0" [abc; abc]] [mkExpertRequest "expert0" [abc]]).
  - reflexivity.
  - repeat constructor.
  - repeat constructor.
  - reflexivity.
Defined.

Lemma first_malformed_tensor_decides_witness :
  rpc_unary Backward experts (mkExpertRequest "expert0" ([abc] ++ garbage :: [abc])) []
  = (Raise (RuntimeError "malformed tensor"), []).
Proof.
  apply (first_malformed_tensor_decides (H:=collaborators) Backward experts "expert0"
           [abc] garbage [abc] [wt_payload abc]).
  - repeat constructor.
  - reflexivity.
Defined.

Lemma stream_unknown_uid_witness :
  rpc_stream Forward experts
    (Created [mkExpertRequest "expert1" [abc]; mkExpertRequest "expert1" []]) []
  = (Raise (KeyError (Some "expert1")), Finished, []).
Proof.
  apply (stream_unknown_uid (H:=collaborators) Forward experts
           (mkExpertRequest "expert1" [abc]) [mkExpertRequest "expert1" []]
           [wt_payload abc]).
  - reflexivity.
  - repeat constructor.
  - repeat constructor.
Defined.

Lemma backward_stream_refines_unary_witness :
  consume (rpc_backward_stream experts) 3
    (Created [mkExpertRequest "expert0" []; mkExpertRequest "expert0" [abc]]) []
  = Some (Ok (frame_of <$> concat (fragments_of [encode (wt_payload abc) 0%N])),
          Finished, [mkSubmission "expert0.backward" [wt_payload abc]]).
Proof.
  pose proof (backward_stream_refines_unary experts (mkExpertRequest "expert0" [])
                [mkExpertRequest "expert0" [abc]] []) as Hrefines.
  simpl in Hrefines.
  destruct Hrefines as (Hstream & _).
  - repeat constructor.
  - reflexivity.
  - apply Hstream. simpl. lia.
Defined.

Lemma unary_calls_local_witness :
  rpc_unary Forward (<["expert1" := exchanged expert0]> experts)
    (mkExpertRequest "expert0" [abc]) []
  = rpc_unary Forward experts (mkExpertRequest "expert0" [abc]) [].
Proof.
  apply (unary_calls_local (<["expert1" := exchanged expert0]> experts) experts
           "expert0").
  reflexivity.
Defined.

Lemma stream_calls_local_witness :
  step_n (rpc_stream Forward (<["expert1" := exchanged expert0]> experts)) 2
    (Created [mkExpertRequest "expert0" [abc]]) []
  = step_n (rpc_stream Forward experts) 2 (Created [mkExpertRequest "expert0" [abc]]) [].
Proof.
  apply (stream_calls_local Forward (<["expert1" := exchanged expert0]> experts)
           experts (mkExpertRequest "expert0" [abc]) []).
  reflexivity.
Defined.

Lemma run_interrupt_logged_not_reported_witness :
  Lifecycle.resolutions
    (Lifecycle.run
       (Lifecycle.mkStartup Lifecycle.Returns Lifecycle.Returns
          (Some Lifecycle.KeyboardInterrupt)))
  = [Lifecycle.ready_set_result] ∧
  ¬ In (Lifecycle.log_debug "Caught KeyboardInterrupt, shutting down")
      (Lifecycle.run
         (Lifecycle.mkStartup Lifecycle.Returns Lifecycle.Returns None)).1.
Proof.
  split.
  - apply (run_interrupt_logged_not_reported
             (Lifecycle.mkStartup Lifecycle.Returns Lifecycle.Returns
                (Some Lifecycle.KeyboardInterrupt))).
    reflexivity.
  - apply (run_interrupt_logged_not_reported
             (Lifecycle.mkStartup Lifecycle.Returns Lifecycle.Returns None)).
    reflexivity.
Defined.

Lemma run_registers_after_joining_witness :
  In (Lifecycle.call_add_p2p_handlers true)
    (Lifecycle.run
       (Lifecycle.mkStartup Lifecycle.Returns
          (Lifecycle.Raises (Lifecycle.Exception (RuntimeError "refused"))) None)).1.
Proof.
  apply (run_registers_after_joining
           (Lifecycle.mkStartup Lifecycle.Returns
              (Lifecycle.Raises (Lifecycle.Exception (RuntimeError "refused"))) None)).
  reflexivity.
Defined.
